(** * Counting Bloom filter ([cbf.py]): shallow embedding and verification

    The Python class [CountingBloomFilter] is embedded as a record of its
    five attributes and a state-and-exception monad over it.  Python [int]
    is [Z]; Python [float] / [numpy.float64] is the kernel's binary64
    [float]; a Python [str] is the list of its code points; a Python list of
    counters is a [list Z] read and written through Python's index rules
    (negative indices wrap once, anything else raises [IndexError]). *)

From Stdlib Require Import ZArith List Lia Floats String Ascii.
From stdpp Require Import base list.
Import ListNotations.

Set Warnings "-inexact-float".
Local Open Scope Z_scope.

(** ** Exceptions and results *)

(** The built-in exceptions the code can meet. *)
Inductive exn : Type :=
| ZeroDivisionError
| IndexError
| OverflowError
| ValueError.

Inductive result (A : Type) : Type :=
| Ok (a : A)
| Raise (e : exn).
Arguments Ok {A} a.
Arguments Raise {A} e.

Definition raises {A : Type} (r : result A) : Prop :=
  match r with Ok _ => False | Raise _ => True end.

(** ** Python floats *)

Module PyFloat.

(** [int(x)]: truncation toward zero; [OverflowError] on an infinity,
    [ValueError] on a NaN. *)
Definition trunc_SF (x : spec_float) : result Z :=
  match x with
  | S754_zero _ => Ok 0
  | S754_infinity _ => Raise OverflowError
  | S754_nan => Raise ValueError
  | S754_finite s m e =>
      Ok (Z.quot (cond_Zopp s (Z.pos m * 2 ^ Z.max e 0)) (2 ^ Z.max (- e) 0))
  end.

(** [round(x)] with no digits: the nearest integer, ties to the even one. *)
Definition half_even (n d : Z) : Z :=
  let q := n / d in
  let r := n mod d in
  if 2 * r <? d then q
  else if d <? 2 * r then q + 1
  else if Z.even q then q else q + 1.

Definition round_SF (x : spec_float) : result Z :=
  match x with
  | S754_zero _ => Ok 0
  | S754_infinity _ => Raise OverflowError
  | S754_nan => Raise ValueError
  | S754_finite s m e =>
      Ok (cond_Zopp s (half_even (Z.pos m * 2 ^ Z.max e 0) (2 ^ Z.max (- e) 0)))
  end.

Definition int (x : float) : result Z := trunc_SF (Prim2SF x).
Definition round (x : float) : result Z := round_SF (Prim2SF x).

(** An [int] operand of a float product is converted to the nearest
    double (ties to even); [OverflowError] when it is out of range. *)
Definition of_int (n : Z) : result float :=
  let x := SF2Prim (binary_normalize prec emax n 0 false) in
  if is_infinity x then Raise OverflowError else Ok x.

End PyFloat.

(** ** Python integers and lists *)

(** [a % m]: the remainder has the sign of [m]; [ZeroDivisionError] for [m = 0]. *)
Definition py_mod (a m : Z) : result Z :=
  if m =? 0 then Raise ZeroDivisionError else Ok (a mod m).

(** [range(k)] *)
Definition range (k : Z) : list Z := map Z.of_nat (seq 0 (Z.to_nat k)).

(** The position a list subscript [l[i]] denotes. *)
Definition py_index {A : Type} (l : list A) (i : Z) : result nat :=
  let n := Z.of_nat (length l) in
  if (0 <=? i) && (i <? n) then Ok (Z.to_nat i)
  else if (- n <=? i) && (i <? 0) then Ok (Z.to_nat (i + n))
  else Raise IndexError.

(** [l[i]] *)
Definition getitem (l : list Z) (i : Z) : result Z :=
  match py_index l i with
  | Ok j => match l !! j with Some v => Ok v | None => Raise IndexError end
  | Raise e => Raise e
  end.

(** [l[i] = v] *)
Definition setitem (l : list Z) (i v : Z) : result (list Z) :=
  match py_index l i with
  | Ok j => Ok (<[j := v]> l)
  | Raise e => Raise e
  end.

(** A [str] is the sequence of its code points; [ord] reads one. *)
Definition char : Type := N.
Definition str : Type := list char.
Definition ord (c : char) : Z := Z.of_N c.

(** The [str] of an ASCII literal. *)
Definition str_of (s : string) : str := map N_of_ascii (list_ascii_of_string s).

(** ** The filter object *)

Record CountingBloomFilter : Type := {
  fpr : float;
  num_items : Z;
  memory_size : Z;
  hash_table : list Z;
  num_hash_functions : Z
}.

Definition set_hash_table (t : list Z) (self : CountingBloomFilter) :=
  {| fpr := fpr self; num_items := num_items self;
     memory_size := memory_size self; hash_table := t;
     num_hash_functions := num_hash_functions self |}.

Definition set_num_items (n : Z) (self : CountingBloomFilter) :=
  {| fpr := fpr self; num_items := n;
     memory_size := memory_size self; hash_table := hash_table self;
     num_hash_functions := num_hash_functions self |}.

(** ** Methods run in a state-and-exception monad over [self] *)

Definition M (A : Type) : Type :=
  CountingBloomFilter -> result (A * CountingBloomFilter).

Definition ret {A : Type} (a : A) : M A := fun self => Ok (a, self).

Definition bind {A B : Type} (c : M A) (f : A -> M B) : M B :=
  fun self =>
    match c self with
    | Ok (a, self') => f a self'
    | Raise e => Raise e
    end.

Definition lift {A : Type} (r : result A) : M A :=
  fun self => match r with Ok a => Ok (a, self) | Raise e => Raise e end.

Definition attr {A : Type} (f : CountingBloomFilter -> A) : M A :=
  fun self => Ok (f self, self).

Definition assign (f : CountingBloomFilter -> CountingBloomFilter) : M unit :=
  fun self => Ok (tt, f self).

Declare Scope cbf_scope.
Delimit Scope cbf_scope with cbf.
Notation "'let*' x ':=' c 'in' k" := (bind c (fun x => k))
  (at level 10, x name, c at level 100, k at level 200) : cbf_scope.
Notation "'do' c 'then' k" := (bind c (fun _ => k))
  (at level 10, c at level 100, k at level 200) : cbf_scope.
Local Open Scope cbf_scope.

(** *** [__init__] *)

Section Construction.

(** [numpy.log2] on doubles, supplied by the NumPy installation. *)
Variable np_log2 : float -> float.

Definition __init__ (num_items0 : Z) (fpr0 : float) (num_hash_functions0 : Z)
  : result CountingBloomFilter :=
  let self_fpr := if (0 <? fpr0)%float then fpr0 else 0.02%float in
  match PyFloat.of_int num_items0 with
  | Raise e => Raise e
  | Ok n =>
    match PyFloat.int (n * (-1.44 * np_log2 fpr0))%float with
    | Raise e => Raise e
    | Ok m =>
      let table := repeat 0 (Z.to_nat m) in
      if num_hash_functions0 =? 0 then
        match PyFloat.int (- np_log2 fpr0)%float with
        | Raise e => Raise e
        | Ok t =>
          if 0 <? t then
            match PyFloat.round (- np_log2 fpr0)%float with
            | Raise e => Raise e
            | Ok k =>
              Ok {| fpr := self_fpr; num_items := 0; memory_size := m;
                    hash_table := table; num_hash_functions := k |}
            end
          else
            Ok {| fpr := self_fpr; num_items := 0; memory_size := m;
                  hash_table := table; num_hash_functions := 1 |}
        end
      else
        Ok {| fpr := self_fpr; num_items := 0; memory_size := m;
              hash_table := table; num_hash_functions := num_hash_functions0 |}
    end
  end.

End Construction.

(** *** [str_to_int] *)

(** The [for char_index in range(str_length)] loop, started at position
    [char_index] with the accumulator [final_num], over the characters left. *)
Fixpoint str_to_int_loop (d m : Z) (item : str) (char_index final_num : Z)
  : M Z :=
  match item with
  | [] => ret final_num
  | c :: rest =>
      let int_char := ord c * d ^ char_index in
      let* final_num' := lift (py_mod (final_num + int_char ^ 2) m) in
      str_to_int_loop d m rest (char_index + 1) final_num'
  end.

Definition str_to_int (item : str) (i : Z) : M Z :=
  let d := 2 ^ (i + 1) in
  let* m := attr memory_size in
  str_to_int_loop d m item 0 0.

(** *** [hash_cbf] *)

(** The [for i in range(k)] loop over the values of [i] left; the indices
    come back in the order they are appended. *)
Fixpoint hash_cbf_loop (item : str) (todo : list Z) : M (list Z) :=
  match todo with
  | [] => ret []
  | i :: rest =>
      let* hash_index := str_to_int item i in
      let* hash_indices := hash_cbf_loop item rest in
      ret (hash_index :: hash_indices)
  end.

Definition hash_cbf (item : str) : M (list Z) :=
  let* k := attr num_hash_functions in
  hash_cbf_loop item (range k).

(** *** [search_hashes] and [search] *)

Fixpoint search_hashes (hash_indices : list Z) : M bool :=
  match hash_indices with
  | [] => ret true
  | hash_index :: rest =>
      let* t := attr hash_table in
      let* c := lift (getitem t hash_index) in
      if c =? 0 then ret false else search_hashes rest
  end.

Definition search (item : str) : M bool :=
  let* hash_indices := hash_cbf item in
  search_hashes hash_indices.

(** *** [insert] and [delete] *)

(** [self.hash_table[hash_index] += delta] for every index in turn. *)
Fixpoint add_at_each (delta : Z) (hash_indices : list Z) : M unit :=
  match hash_indices with
  | [] => ret tt
  | hash_index :: rest =>
      let* t := attr hash_table in
      let* c := lift (getitem t hash_index) in
      let* t' := lift (setitem t hash_index (c + delta)) in
      do assign (set_hash_table t') then
      add_at_each delta rest
  end.

Definition insert (item : str) : M unit :=
  let* hash_indices := hash_cbf item in
  do add_at_each 1 hash_indices then
  let* n := attr num_items in
  assign (set_num_items (n + 1)).

Definition delete (item : str) : M unit :=
  let* hash_indices := hash_cbf item in
  let* present := search_hashes hash_indices in
  do (if present then add_at_each (-1) hash_indices else ret tt) then
  let* n := attr num_items in
  assign (set_num_items (n - 1)).

(** ** Pure readings of the methods *)

(** The counter of slot [j] (0 for a slot the table does not have). *)
Definition counter (self : CountingBloomFilter) (j : Z) : Z :=
  default 0 (hash_table self !! Z.to_nat j).

(** The counter table has the length [__init__] gave it. *)
Definition sized (self : CountingBloomFilter) : Prop :=
  length (hash_table self) = Z.to_nat (memory_size self).

(** No slot of the table holds a negative counter. *)
Definition nonneg (self : CountingBloomFilter) : Prop :=
  forall j, 0 <= j -> 0 <= counter self j.

(** The value [__init__] stores as [self.fpr]. *)
Definition stored_fpr (fpr0 : float) : float :=
  if (0 <? fpr0)%float then fpr0 else 0.02%float.

(** The hash of the specification: a left-to-right fold over the character
    positions [p] and codes [c], from [acc = 0], with
    [term = c * d^p] and [acc = (acc + term^2) mod m]. *)
Definition positions (item : str) : list (Z * char) :=
  combine (range (Z.of_nat (length item))) item.

Definition fold_hash (m d : Z) (item : str) : Z :=
  fold_left
    (fun acc pc => let term := ord (snd pc) * d ^ fst pc in (acc + term ^ 2) mod m)
    (positions item) 0.

Definition hash_index (m : Z) (item : str) (i : Z) : Z :=
  fold_hash m (2 ^ (i + 1)) item.

(** The index list [hash_cbf] computes on a filter with [m <> 0]. *)
Definition indices_of (self : CountingBloomFilter) (item : str) : list Z :=
  map (hash_index (memory_size self) item) (range (num_hash_functions self)).

(** How often slot [j] occurs in an index list. *)
Definition occ (j : Z) (hash_indices : list Z) : Z :=
  Z.of_nat (count_occ Z.eq_dec hash_indices j).

(** The table after [t[h] += delta] for every [h] of an index list. *)
Definition bump (delta : Z) (hash_indices : list Z) (t : list Z) : list Z :=
  fold_left
    (fun t h => <[Z.to_nat h := default 0 (t !! Z.to_nat h) + delta]> t)
    hash_indices t.

(** The object [__init__] leaves behind once the sizes are known. *)
Definition fresh (f : float) (m k : Z) : CountingBloomFilter :=
  {| fpr := f; num_items := 0; memory_size := m;
     hash_table := repeat 0 (Z.to_nat m); num_hash_functions := k |}.

(** A filter that [__init__] sized with at least one slot. *)
Definition wf (self : CountingBloomFilter) : Prop :=
  0 < memory_size self /\ sized self.

(** What [search], [insert] and [delete] compute on such a filter. *)
Definition present (self : CountingBloomFilter) (item : str) : bool :=
  forallb (fun h => negb (counter self h =? 0)) (indices_of self item).

Definition inserted (self : CountingBloomFilter) (item : str) :=
  set_num_items (num_items self + 1)
    (set_hash_table (bump 1 (indices_of self item) (hash_table self)) self).

Definition deleted (self : CountingBloomFilter) (item : str) :=
  set_num_items (num_items self - 1)
    (if present self item
     then set_hash_table (bump (-1) (indices_of self item) (hash_table self)) self
     else self).

(** A call sequence on one filter. *)
Inductive call : Type :=
| Search (item : str)
| Insert (item : str)
| Delete (item : str).

Definition run_call (c : call) : M (option bool) :=
  match c with
  | Search item => let* b := search item in ret (Some b)
  | Insert item => do insert item then ret None
  | Delete item => do delete item then ret None
  end.

Fixpoint run_calls (cs : list call) : M (list (option bool)) :=
  match cs with
  | [] => ret []
  | c :: rest =>
      let* o := run_call c in
      let* os := run_calls rest in
      ret (o :: os)
  end.

(** The values of [numpy.log2] at the arguments the examples below use:
    the IEEE special cases, the exact powers of two, and [log2 0.02]
    rounded to the nearest double. *)
Definition np_log2_at (x : float) : float :=
  if (x <? 0)%float then nan
  else if (x =? 0)%float then neg_infinity
  else if (x =? 0.02)%float then (-5.643856189774724)%float
  else if (x =? 0.5)%float then (-1)%float
  else if (x =? 1)%float then 0%float
  else nan.

(** The doubles within [n] units in the last place of [x]. *)
Fixpoint walk (step : float -> float) (n : nat) (x : float) : list float :=
  match n with
  | O => []
  | S n' => step x :: walk step n' (step x)
  end.

Definition ulp_ball (n : nat) (x : float) : list float :=
  walk next_down n x ++ x :: walk next_up n x.

(** ** Vocabulary of the further properties *)

(** The sum of all counters of a table. *)
Definition total (t : list Z) : Z := fold_right Z.add 0 t.

(** What a call sequence adds to [num_items]: one up per [insert], one down
    per [delete]. *)
Fixpoint net_items (cs : list call) : Z :=
  match cs with
  | [] => 0
  | Search _ :: rest => net_items rest
  | Insert _ :: rest => 1 + net_items rest
  | Delete _ :: rest => -1 + net_items rest
  end.

(** The filter after a batch of insertions, in order. *)
Definition insert_all (self : CountingBloomFilter) (items : list str)
  : CountingBloomFilter :=
  fold_left inserted items self.

(** How often slot [j] is hit by the index lists of a batch of items. *)
Definition load (self : CountingBloomFilter) (items : list str) (j : Z) : Z :=
  fold_right (fun x acc => occ j (indices_of self x) + acc) 0 items.

(** * Verification *)

(** ** The monad and the Python primitives *)

Lemma py_mod_ok (a m : Z) : m <> 0 -> py_mod a m = Ok (a mod m).
Proof. intros Hm. unfold py_mod. destruct (Z.eqb_spec m 0); [lia | reflexivity]. Qed.

Lemma py_index_in_range {A : Type} (l : list A) (i : Z) :
  0 <= i < Z.of_nat (length l) -> py_index l i = Ok (Z.to_nat i).
Proof.
  intros [H0 H1]. unfold py_index.
  destruct (Z.leb_spec 0 i); [|lia].
  destruct (Z.ltb_spec i (Z.of_nat (length l))); [reflexivity | lia].
Qed.

Lemma getitem_in_range (l : list Z) (i : Z) :
  0 <= i < Z.of_nat (length l) ->
  getitem l i = Ok (default 0 (l !! Z.to_nat i)).
Proof.
  intros Hi. unfold getitem. rewrite py_index_in_range by assumption.
  destruct (l !! Z.to_nat i) eqn:E; [reflexivity|].
  apply lookup_ge_None in E. lia.
Qed.

Lemma setitem_in_range (l : list Z) (i v : Z) :
  0 <= i < Z.of_nat (length l) ->
  setitem l i v = Ok (<[Z.to_nat i := v]> l).
Proof. intros Hi. unfold setitem. now rewrite py_index_in_range. Qed.


Lemma range_length (k : Z) : length (range k) = Z.to_nat k.
Proof. unfold range. now rewrite length_map, length_seq. Qed.

Lemma range_lookup (k i : Z) :
  0 <= i < k -> range k !! Z.to_nat i = Some i.
Proof.
  intros Hi. unfold range. rewrite list_lookup_fmap.
  rewrite lookup_seq_lt by lia. simpl. f_equal. lia.
Qed.


Lemma range_pos (k : Z) : 1 <= k -> exists rest, range k = 0 :: rest.
Proof.
  intros Hk. unfold range.
  destruct (Z.to_nat k) eqn:E; [lia|]. simpl. eauto.
Qed.

Lemma bind_ok {A B : Type} (c : M A) (f : A -> M B) self a self' :
  c self = Ok (a, self') -> bind c f self = f a self'.
Proof. intros H. unfold bind. now rewrite H. Qed.


(** ** Hashing *)

Lemma str_to_int_loop_ok (d m : Z) (item : str) :
  m <> 0 ->
  forall (p : nat) (acc : Z) self,
    str_to_int_loop d m item (Z.of_nat p) acc self =
    Ok (fold_left
          (fun acc pc =>
             let term := ord (snd pc) * d ^ fst pc in (acc + term ^ 2) mod m)
          (combine (map Z.of_nat (seq p (length item))) item) acc,
        self).
Proof.
  intros Hm. induction item as [|c rest IH]; intros p acc self.
  - reflexivity.
  - cbn [str_to_int_loop length seq map combine fold_left fst snd].
    erewrite bind_ok; [|unfold lift; rewrite py_mod_ok by assumption; reflexivity].
    replace (Z.of_nat p + 1) with (Z.of_nat (S p)) by lia.
    apply IH.
Qed.

Lemma str_to_int_ok (item : str) (i : Z) self :
  memory_size self <> 0 ->
  str_to_int item i self = Ok (hash_index (memory_size self) item i, self).
Proof.
  intros Hm. unfold str_to_int, hash_index, fold_hash, positions, range.
  erewrite bind_ok; [|reflexivity].
  rewrite Nat2Z.id. now apply (str_to_int_loop_ok _ _ item Hm 0%nat).
Qed.

Lemma str_to_int_empty (i : Z) self : str_to_int [] i self = Ok (0, self).
Proof. reflexivity. Qed.

Lemma hash_index_empty (m i : Z) : hash_index m [] i = 0.
Proof. reflexivity. Qed.

Lemma fold_hash_range (m d : Z) (item : str) :
  0 < m -> 0 <= fold_hash m d item < m.
Proof.
  intros Hm. unfold fold_hash.
  enough (H : forall (l : list (Z * char)) acc,
             0 <= acc < m ->
             0 <= fold_left
                    (fun acc pc =>
                       let term := ord (snd pc) * d ^ fst pc in
                       (acc + term ^ 2) mod m) l acc < m)
    by (apply H; lia).
  induction l as [|pc l IH]; intros acc Hacc; cbn [fold_left].
  - exact Hacc.
  - apply IH. apply Z.mod_pos_bound. exact Hm.
Qed.

Lemma hash_index_range (m : Z) (item : str) (i : Z) :
  0 < m -> 0 <= hash_index m item i < m.
Proof. intros Hm. apply fold_hash_range. exact Hm. Qed.

Lemma hash_cbf_loop_ok (item : str) (todo : list Z) self :
  memory_size self <> 0 ->
  hash_cbf_loop item todo self =
  Ok (map (hash_index (memory_size self) item) todo, self).
Proof.
  intros Hm. induction todo as [|i rest IH].
  - reflexivity.
  - cbn [hash_cbf_loop map].
    erewrite bind_ok; [|now apply str_to_int_ok].
    erewrite bind_ok; [|exact IH]. reflexivity.
Qed.

Lemma hash_cbf_ok (item : str) self :
  memory_size self <> 0 ->
  hash_cbf item self = Ok (indices_of self item, self).
Proof.
  intros Hm. unfold hash_cbf. erewrite bind_ok; [|reflexivity].
  now apply hash_cbf_loop_ok.
Qed.

Lemma hash_cbf_loop_empty (todo : list Z) self :
  hash_cbf_loop [] todo self = Ok (map (fun _ => 0) todo, self).
Proof.
  induction todo as [|i rest IH]; [reflexivity|].
  cbn [hash_cbf_loop map].
  erewrite bind_ok; [|apply str_to_int_empty].
  erewrite bind_ok; [|exact IH]. reflexivity.
Qed.


Lemma indices_of_range (item : str) self :
  0 < memory_size self ->
  Forall (fun h => 0 <= h < memory_size self) (indices_of self item).
Proof.
  intros Hm. unfold indices_of. apply List.Forall_forall.
  intros h Hin. apply List.in_map_iff in Hin as (i & <- & _).
  now apply hash_index_range.
Qed.

Lemma indices_of_length (item : str) self :
  length (indices_of self item) = Z.to_nat (num_hash_functions self).
Proof. unfold indices_of. now rewrite length_map, range_length. Qed.

(** ** Reading and updating the counters *)

Lemma search_hashes_ok (hash_indices : list Z) self :
  Forall (fun h => 0 <= h < Z.of_nat (length (hash_table self))) hash_indices ->
  search_hashes hash_indices self =
  Ok (forallb (fun h => negb (counter self h =? 0)) hash_indices, self).
Proof.
  induction 1 as [|h rest Hh _ IH]; [reflexivity|].
  cbn [search_hashes forallb].
  erewrite bind_ok; [|reflexivity].
  erewrite bind_ok; [|unfold lift; rewrite getitem_in_range by exact Hh; reflexivity].
  fold (counter self h).
  destruct (counter self h =? 0); [reflexivity | exact IH].
Qed.

Lemma bump_length (delta : Z) (hash_indices t : list Z) :
  length (bump delta hash_indices t) = length t.
Proof.
  revert t. induction hash_indices as [|h rest IH]; intros t; [reflexivity|].
  unfold bump in *. cbn [fold_left]. rewrite IH. apply length_insert.
Qed.

Lemma occ_cons (j h : Z) (rest : list Z) :
  occ j (h :: rest) = (if Z.eq_dec h j then 1 else 0) + occ j rest.
Proof.
  unfold occ. cbn [count_occ]. destruct (Z.eq_dec h j); lia.
Qed.

Lemma occ_nonneg (j : Z) (l : list Z) : 0 <= occ j l.
Proof. unfold occ. lia. Qed.

Lemma occ_in (j : Z) (l : list Z) : In j l -> 1 <= occ j l.
Proof.
  intros Hin. unfold occ.
  apply (proj1 (count_occ_In Z.eq_dec l j)) in Hin. lia.
Qed.

Lemma bump_lookup (delta : Z) (hash_indices : list Z) :
  forall (t : list Z) (j : Z),
    Forall (fun h => 0 <= h < Z.of_nat (length t)) hash_indices ->
    0 <= j ->
    default 0 (bump delta hash_indices t !! Z.to_nat j) =
    default 0 (t !! Z.to_nat j) + delta * occ j hash_indices.
Proof.
  induction hash_indices as [|h rest IH]; intros t j Hall Hj.
  - unfold occ. cbn. lia.
  - inversion Hall as [|? ? Hh Hrest]; subst.
    change (bump delta (h :: rest) t)
      with (bump delta rest (<[Z.to_nat h := default 0 (t !! Z.to_nat h) + delta]> t)).
    rewrite IH; [|rewrite length_insert; exact Hrest|exact Hj].
    rewrite occ_cons. destruct (Z.eq_dec h j) as [->|Hne].
    + rewrite list_lookup_insert_eq by lia. cbn [default from_option id]. lia.
    + rewrite list_lookup_insert_ne by lia. lia.
Qed.

Lemma add_at_each_ok (delta : Z) (hash_indices : list Z) :
  forall self,
    Forall (fun h => 0 <= h < Z.of_nat (length (hash_table self))) hash_indices ->
    add_at_each delta hash_indices self =
    Ok (tt, set_hash_table (bump delta hash_indices (hash_table self)) self).
Proof.
  induction hash_indices as [|h rest IH]; intros self Hall.
  - destruct self; reflexivity.
  - inversion Hall as [|? ? Hh Hrest]; subst.
    cbn [add_at_each].
    erewrite bind_ok; [|reflexivity].
    erewrite bind_ok; [|unfold lift; rewrite getitem_in_range by exact Hh; reflexivity].
    erewrite bind_ok; [|unfold lift; rewrite setitem_in_range by exact Hh; reflexivity].
    erewrite bind_ok; [|reflexivity].
    rewrite IH; [reflexivity|].
    cbn [set_hash_table hash_table]. rewrite length_insert. exact Hrest.
Qed.

(** ** The three operations on a sized filter *)

Lemma wf_indices (self : CountingBloomFilter) (item : str) :
  wf self ->
  Forall (fun h => 0 <= h < Z.of_nat (length (hash_table self)))
         (indices_of self item).
Proof.
  intros [Hm Hs]. red in Hs. rewrite Hs.
  eapply List.Forall_impl; [|apply indices_of_range; exact Hm].
  intros h Hh. cbv beta in *. lia.
Qed.

Lemma wf_fresh (f : float) (m k : Z) : 1 <= m -> wf (fresh f m k).
Proof.
  intros Hm. split; [simpl; lia|].
  unfold sized, fresh. cbn [hash_table memory_size]. apply repeat_length.
Qed.

Lemma counter_fresh (f : float) (m k j : Z) : counter (fresh f m k) j = 0.
Proof.
  unfold counter, fresh. cbn [hash_table].
  destruct (repeat 0 (Z.to_nat m) !! Z.to_nat j) as [v|] eqn:E; [|reflexivity].
  apply list_elem_of_lookup_2, list_elem_of_In, repeat_spec in E.
  subst. reflexivity.
Qed.

Lemma search_ok (self : CountingBloomFilter) (item : str) :
  wf self -> search item self = Ok (present self item, self).
Proof.
  intros Hwf. unfold search.
  erewrite bind_ok; [|apply hash_cbf_ok; destruct Hwf; lia].
  apply search_hashes_ok, wf_indices, Hwf.
Qed.

Lemma insert_ok (self : CountingBloomFilter) (item : str) :
  wf self -> insert item self = Ok (tt, inserted self item).
Proof.
  intros Hwf. unfold insert.
  erewrite bind_ok; [|apply hash_cbf_ok; destruct Hwf; lia].
  erewrite bind_ok; [|apply add_at_each_ok, wf_indices, Hwf].
  erewrite bind_ok; reflexivity.
Qed.

Lemma delete_ok (self : CountingBloomFilter) (item : str) :
  wf self -> delete item self = Ok (tt, deleted self item).
Proof.
  intros Hwf. unfold delete.
  erewrite bind_ok; [|apply hash_cbf_ok; destruct Hwf; lia].
  erewrite bind_ok; [|apply search_hashes_ok, wf_indices, Hwf].
  fold (present self item). unfold deleted.
  destruct (present self item).
  - erewrite bind_ok; [|apply add_at_each_ok, wf_indices, Hwf].
    erewrite bind_ok; reflexivity.
  - erewrite bind_ok; [|reflexivity]. erewrite bind_ok; reflexivity.
Qed.

Lemma wf_inserted (self : CountingBloomFilter) (item : str) :
  wf self -> wf (inserted self item).
Proof.
  intros [Hm Hs]. split; [exact Hm|].
  unfold sized, inserted in *. cbn. now rewrite bump_length.
Qed.

Lemma wf_deleted (self : CountingBloomFilter) (item : str) :
  wf self -> wf (deleted self item).
Proof.
  intros [Hm Hs]. unfold deleted. destruct (present self item).
  - split; [exact Hm|]. unfold sized in *. cbn. now rewrite bump_length.
  - split; [exact Hm | exact Hs].
Qed.

Lemma counter_inserted (self : CountingBloomFilter) (item : str) (j : Z) :
  wf self -> 0 <= j ->
  counter (inserted self item) j = counter self j + occ j (indices_of self item).
Proof.
  intros Hwf Hj. unfold counter, inserted. cbn [hash_table set_num_items set_hash_table].
  rewrite bump_lookup; [lia | now apply wf_indices | exact Hj].
Qed.

Lemma counter_deleted (self : CountingBloomFilter) (item : str) (j : Z) :
  wf self -> 0 <= j -> present self item = true ->
  counter (deleted self item) j = counter self j - occ j (indices_of self item).
Proof.
  intros Hwf Hj Hp. unfold counter, deleted. rewrite Hp.
  cbn [hash_table set_num_items set_hash_table].
  rewrite bump_lookup; [lia | now apply wf_indices | exact Hj].
Qed.

Lemma present_true_iff (self : CountingBloomFilter) (item : str) :
  present self item = true <->
  forall h, In h (indices_of self item) -> counter self h <> 0.
Proof.
  unfold present. rewrite List.forallb_forall. split; intros H h Hin.
  - specialize (H h Hin). destruct (Z.eqb_spec (counter self h) 0); [discriminate | assumption].
  - specialize (H h Hin). destruct (Z.eqb_spec (counter self h) 0); [contradiction | reflexivity].
Qed.

(** Two tables of one length with the same counters are one table. *)
Lemma table_ext (t1 t2 : list Z) :
  length t1 = length t2 ->
  (forall j : nat, default 0 (t1 !! j) = default 0 (t2 !! j)) ->
  t1 = t2.
Proof.
  intros Hlen Hc. apply list_eq. intros j.
  specialize (Hc j).
  destruct (t1 !! j) as [v1|] eqn:E1, (t2 !! j) as [v2|] eqn:E2; cbn in Hc.
  - now subst.
  - apply lookup_lt_Some in E1. apply lookup_ge_None in E2. lia.
  - apply lookup_ge_None in E1. apply lookup_lt_Some in E2. lia.
  - reflexivity.
Qed.

(** Every call sequence on a sized filter runs to its end. *)
Lemma run_call_ok (c : call) (self : CountingBloomFilter) :
  wf self -> exists o self', run_call c self = Ok (o, self') /\ wf self'.
Proof.
  intros Hwf. destruct c as [item|item|item]; cbn [run_call].
  - erewrite bind_ok; [|now apply search_ok]. now eauto.
  - erewrite bind_ok; [|now apply insert_ok].
    eexists _, _. split; [reflexivity | now apply wf_inserted].
  - erewrite bind_ok; [|now apply delete_ok].
    eexists _, _. split; [reflexivity | now apply wf_deleted].
Qed.

Lemma run_calls_ok (cs : list call) :
  forall self, wf self ->
               exists os self', run_calls cs self = Ok (os, self') /\ wf self'.
Proof.
  induction cs as [|c rest IH]; intros self Hwf.
  - now exists [], self.
  - destruct (run_call_ok c self Hwf) as (o & self1 & E1 & Hwf1).
    destruct (IH self1 Hwf1) as (os & self2 & E2 & Hwf2).
    exists (o :: os), self2. split; [|exact Hwf2].
    cbn [run_calls]. erewrite bind_ok; [|exact E1].
    erewrite bind_ok; [|exact E2]. reflexivity.
Qed.

(** ** Claims on [delete], the hash family and the counters *)

(** C1. On a sized filter [delete item] hashes the item, tests membership
    over those indices, and lowers the counter of every index by one per
    occurrence only when the test passes; the item count goes down by one
    in both cases, so a non-member leaves the table as it was while the
    count still falls, below zero when it was not positive. *)
Theorem delete_gates_counters_not_count (self : CountingBloomFilter) (item : str) :
  wf self ->
  exists (b : bool) (self' : CountingBloomFilter),
    hash_cbf item self = Ok (indices_of self item, self) /\
    search_hashes (indices_of self item) self = Ok (b, self) /\
    search item self = Ok (b, self) /\
    delete item self = Ok (tt, self') /\
    num_items self' = num_items self - 1 /\
    memory_size self' = memory_size self /\
    num_hash_functions self' = num_hash_functions self /\
    length (hash_table self') = length (hash_table self) /\
    (b = true ->
     forall j, 0 <= j ->
               counter self' j = counter self j - occ j (indices_of self item)) /\
    (b = false -> hash_table self' = hash_table self) /\
    (num_items self <= 0 -> num_items self' < 0).
Proof.
  intros Hwf. exists (present self item), (deleted self item).
  split; [apply hash_cbf_ok; destruct Hwf; lia|].
  split; [apply search_hashes_ok, wf_indices, Hwf|].
  split; [now apply search_ok|].
  split; [now apply delete_ok|].
  split; [reflexivity|].
  split; [unfold deleted; now destruct (present self item)|].
  split; [unfold deleted; now destruct (present self item)|].
  split.
  { unfold deleted. destruct (present self item); [|reflexivity].
    cbn. apply bump_length. }
  split; [intros Hb j Hj; now apply counter_deleted|].
  split; [intros Hb; unfold deleted; now rewrite Hb|].
  cbn [deleted set_num_items num_items]. lia.
Qed.

(** A never-filled filter of five slots and two hash functions: deleting
    ["aa"] from it changes no counter and leaves the item count at -1. *)
Lemma delete_gates_counters_not_count_witness :
  delete (str_of "aa") (fresh 0.5 5 2)
  = Ok (tt, set_num_items (-1) (fresh 0.5 5 2)).
Proof.
  destruct (delete_gates_counters_not_count (fresh 0.5 5 2) (str_of "aa"))
    as (b & self' & _ & _ & _ & Hd & _).
  - apply wf_fresh. lia.
  - rewrite Hd. vm_compute in Hd. injection Hd as <-. reflexivity.
Defined.

(** C6. With [m >= 1] the index list of an item holds, for each
    [i] in [0, k), the left-to-right fold with radix [2^(i+1)] from [0] by
    [acc = (acc + (c * d^p)^2) mod m]; [str_to_int] computes that fold,
    every index lies in [0, m), and the empty string hashes to 0 under every
    hash function. *)
Theorem hash_is_radix_fold (self : CountingBloomFilter) (item : str) :
  1 <= memory_size self ->
  (forall i, str_to_int item i self
             = Ok (fold_hash (memory_size self) (2 ^ (i + 1)) item, self)) /\
  (exists hash_indices,
      hash_cbf item self = Ok (hash_indices, self) /\
      length hash_indices = Z.to_nat (num_hash_functions self) /\
      (forall i, 0 <= i < num_hash_functions self ->
                 hash_indices !! Z.to_nat i
                 = Some (fold_hash (memory_size self) (2 ^ (i + 1)) item)) /\
      Forall (fun h => 0 <= h < memory_size self) hash_indices) /\
  hash_cbf [] self = Ok (repeat 0 (Z.to_nat (num_hash_functions self)), self).
Proof.
  intros Hm. split; [|split].
  - intros i. apply str_to_int_ok. lia.
  - exists (indices_of self item).
    split; [apply hash_cbf_ok; lia|].
    split; [apply indices_of_length|].
    split; [|apply indices_of_range; lia].
    intros i Hi. unfold indices_of. rewrite list_lookup_fmap.
    rewrite range_lookup by exact Hi. reflexivity.
  - rewrite hash_cbf_ok by lia. f_equal. f_equal.
    unfold indices_of, range. generalize (Z.to_nat (num_hash_functions self)) as n.
    intros n. generalize 0%nat as s. induction n as [|n IH]; intros s; [reflexivity|].
    cbn [seq map repeat]. f_equal. apply IH.
Qed.

(** On five slots with two hash functions ["aa"] hashes to slots 0 and 3. *)
Lemma hash_is_radix_fold_witness :
  hash_cbf (str_of "aa") (fresh 0.5 5 2) = Ok ([0; 3], fresh 0.5 5 2).
Proof.
  destruct (hash_is_radix_fold (fresh 0.5 5 2) (str_of "aa"))
    as (_ & (hs & Hh & _) & _).
  - simpl. lia.
  - rewrite Hh. vm_compute in Hh. injection Hh as <-. reflexivity.
Defined.

(** C2. The invariant [0 <= counters[i]] does not survive over-deletion:
    on the filter built by [CountingBloomFilter(4, 0.5, 2)] (five slots, two
    hash functions) inserting ["aa"], which touches slots 0 and 3, and then
    deleting the never-inserted empty string, which touches slot 0 twice,
    leaves slot 0 at -1. *)
Theorem over_deletion_drives_counter_negative :
  exists (self0 self' : CountingBloomFilter) (os : list (option bool)) (j : Z),
    __init__ np_log2_at 4 0.5 2 = Ok self0 /\
    1 <= memory_size self0 /\
    hash_table self0 = [0; 0; 0; 0; 0] /\
    run_calls [Insert (str_of "aa"); Delete (str_of "")] self0 = Ok (os, self') /\
    0 <= j < memory_size self' /\
    hash_table self' !! Z.to_nat j = Some (-1) /\
    counter self' j < 0.
Proof.
  exists (fresh 0.5 5 2), (set_hash_table [-1; 0; 0; 1; 0] (fresh 0.5 5 2)),
    [None; None], 0.
  repeat split; try reflexivity; vm_compute; congruence.
Qed.

(** ** Claims on insertion *)

Lemma indices_of_eq (a b : CountingBloomFilter) (item : str) :
  memory_size a = memory_size b ->
  num_hash_functions a = num_hash_functions b ->
  indices_of a item = indices_of b item.
Proof. intros Hm Hk. unfold indices_of. now rewrite Hm, Hk. Qed.

Lemma indices_of_nonneg (self : CountingBloomFilter) (item : str) (h : Z) :
  wf self -> In h (indices_of self item) -> 0 <= h.
Proof.
  intros [Hm _] Hin.
  pose proof (indices_of_range item self Hm) as Hall.
  rewrite List.Forall_forall in Hall. specialize (Hall h Hin). cbv beta in Hall. lia.
Qed.

(** Insertions only raise counters, and each leaves its item present. *)
Lemma inserts_keep_present (items : list str) :
  forall self,
    wf self -> nonneg self ->
    exists os self',
      run_calls (map Insert items) self = Ok (os, self') /\
      wf self' /\
      memory_size self' = memory_size self /\
      num_hash_functions self' = num_hash_functions self /\
      (forall j, 0 <= j -> counter self j <= counter self' j) /\
      (forall x, In x items -> present self' x = true).
Proof.
  induction items as [|y ys IH]; intros self Hwf Hnn.
  - exists [], self.
    split; [reflexivity|]. split; [exact Hwf|].
    split; [reflexivity|]. split; [reflexivity|].
    split; [intros j _; lia | intros x []].
  - assert (Hstep : forall j, 0 <= j -> counter self j <= counter (inserted self y) j).
    { intros j Hj. rewrite counter_inserted by assumption.
      pose proof (occ_nonneg j (indices_of self y)). lia. }
    destruct (IH (inserted self y)) as (os & self' & Erun & Hwf' & Hm & Hk & Hmono & Hpres).
    { now apply wf_inserted. }
    { intros j Hj. specialize (Hstep j Hj). specialize (Hnn j Hj). lia. }
    exists (None :: os), self'.
    split.
    { cbn [map run_calls run_call].
      erewrite bind_ok; [|erewrite bind_ok; [reflexivity | now apply insert_ok]].
      erewrite bind_ok; [|exact Erun]. reflexivity. }
    split; [exact Hwf'|].
    change (memory_size self' = memory_size self) in Hm.
    change (num_hash_functions self' = num_hash_functions self) in Hk.
    split; [exact Hm|]. split; [exact Hk|].
    split.
    { intros j Hj. specialize (Hstep j Hj). specialize (Hmono j Hj). lia. }
    intros x [<-|Hin]; [|now apply Hpres].
    apply present_true_iff. intros h Hh.
    rewrite (indices_of_eq self' self y Hm Hk) in Hh.
    pose proof (indices_of_nonneg self y h Hwf Hh) as Hh0.
    pose proof (Hmono h Hh0) as H1.
    rewrite counter_inserted in H1 by assumption.
    pose proof (occ_in h _ Hh). specialize (Hnn h Hh0). lia.
Qed.

(** C8. On a never-filled filter with [m >= 1], after any run of
    insertions and no deletion, an inserted item is found by [search]: right
    after its own insertion (no later ones) and after any later ones. *)
Theorem no_false_negative_under_insertions
        (f : float) (m k : Z) (earlier : list str) (x : str) (later : list str) :
  1 <= m ->
  exists os self',
    run_calls (map Insert (earlier ++ x :: later)) (fresh f m k) = Ok (os, self') /\
    search x self' = Ok (true, self').
Proof.
  intros Hm.
  destruct (inserts_keep_present (earlier ++ x :: later) (fresh f m k))
    as (os & self' & Erun & Hwf' & _ & _ & _ & Hpres).
  - now apply wf_fresh.
  - intros j _. rewrite counter_fresh. lia.
  - exists os, self'. split; [exact Erun|].
    rewrite search_ok by exact Hwf'. rewrite Hpres; [reflexivity|].
    apply List.in_or_app. right. now left.
Qed.

(** Five slots, two hash functions: ["aa"] stays found after ["b"]. *)
Lemma no_false_negative_under_insertions_witness :
  exists os self',
    run_calls (map Insert ([str_of "c"] ++ str_of "aa" :: [str_of "b"]))
              (fresh 0.5 5 2) = Ok (os, self') /\
    search (str_of "aa") self' = Ok (true, self').
Proof.
  apply (no_false_negative_under_insertions 0.5 5 2 [str_of "c"] (str_of "aa") [str_of "b"]).
  lia.
Defined.

(** Inserting an item into a filter whose counters at its indices are not
    negative and deleting it again gives the filter back. *)
Lemma insert_then_delete (self : CountingBloomFilter) (x : str) :
  wf self ->
  (forall h, In h (indices_of self x) -> 0 <= counter self h) ->
  present (inserted self x) x = true /\ deleted (inserted self x) x = self.
Proof.
  intros Hwf Hnn.
  assert (Hp : present (inserted self x) x = true).
  { apply present_true_iff. intros h Hh.
    change (indices_of (inserted self x) x) with (indices_of self x) in Hh.
    rewrite counter_inserted; [|exact Hwf|exact (indices_of_nonneg self x h Hwf Hh)].
    pose proof (occ_in h _ Hh). specialize (Hnn h Hh). lia. }
  split; [exact Hp|].
  unfold deleted. rewrite Hp.
  change (indices_of (inserted self x) x) with (indices_of self x).
  pose proof (wf_indices self x Hwf) as Hall.
  destruct self as [f n m t k]. unfold inserted, set_num_items, set_hash_table.
  cbn [fpr num_items memory_size hash_table num_hash_functions] in *.
  f_equal; [lia|].
  apply table_ext.
  - now rewrite !bump_length.
  - intros j. rewrite <- (Nat2Z.id j).
    rewrite !bump_lookup; try lia; try assumption.
    now rewrite bump_length.
Qed.

(** C9. On a never-filled filter with [m >= 1] and [k >= 1], [insert X]
    followed by [delete X] gives back the all-zero table (the whole filter,
    item count included), and [search X] is then false. *)
Theorem insert_delete_roundtrip_fresh (f : float) (m k : Z) (x : str) :
  1 <= m -> 1 <= k ->
  exists self1,
    insert x (fresh f m k) = Ok (tt, self1) /\
    (forall h, In h (indices_of (fresh f m k) x) -> 1 <= counter self1 h) /\
    delete x self1 = Ok (tt, fresh f m k) /\
    (forall j, counter (fresh f m k) j = 0) /\
    hash_table (fresh f m k) = repeat 0 (Z.to_nat m) /\
    search x (fresh f m k) = Ok (false, fresh f m k).
Proof.
  intros Hm Hk. pose proof (wf_fresh f m k Hm) as Hwf.
  exists (inserted (fresh f m k) x).
  split; [now apply insert_ok|].
  split.
  { intros h Hh. rewrite counter_inserted;
      [|exact Hwf|exact (indices_of_nonneg _ x h Hwf Hh)].
    rewrite counter_fresh. pose proof (occ_in h _ Hh). lia. }
  split.
  { rewrite delete_ok by now apply wf_inserted.
    destruct (insert_then_delete (fresh f m k) x Hwf) as [_ ->]; [|reflexivity].
    intros h _. rewrite counter_fresh. lia. }
  split; [intros j; apply counter_fresh|].
  split; [reflexivity|].
  rewrite search_ok by exact Hwf. f_equal. f_equal.
  unfold present, indices_of. cbn [num_hash_functions fresh].
  destruct (range_pos k Hk) as [rest ->].
  cbn [map forallb]. now rewrite counter_fresh.
Qed.

(** Five slots, two hash functions, the item ["aa"]. *)
Lemma insert_delete_roundtrip_fresh_witness :
  exists self1,
    insert (str_of "aa") (fresh 0.5 5 2) = Ok (tt, self1) /\
    delete (str_of "aa") self1 = Ok (tt, fresh 0.5 5 2) /\
    search (str_of "aa") (fresh 0.5 5 2) = Ok (false, fresh 0.5 5 2).
Proof.
  destruct (insert_delete_roundtrip_fresh 0.5 5 2 (str_of "aa"))
    as (self1 & Hi & _ & Hd & _ & _ & Hs); [lia | lia |].
  exists self1. repeat split; assumption.
Defined.

(** ** Construction *)

Lemma half_even_near (n d : Z) :
  PyFloat.half_even n d = n / d \/ PyFloat.half_even n d = n / d + 1.
Proof.
  unfold PyFloat.half_even.
  destruct (2 * (n mod d) <? d); [now left|].
  destruct (d <? 2 * (n mod d)); [now right|].
  destruct (Z.even (n / d)); [now left | now right].
Qed.

(** [int(x)] is the magnitude of [x] rounded down, with the sign of [x]. *)
Lemma trunc_SF_toward_zero (s : bool) (mant : positive) (e : Z) :
  PyFloat.trunc_SF (S754_finite s mant e)
  = Ok (cond_Zopp s (Z.pos mant * 2 ^ Z.max e 0 / 2 ^ Z.max (- e) 0)).
Proof.
  cbn [PyFloat.trunc_SF]. f_equal.
  assert (Hn : 0 <= Z.pos mant * 2 ^ Z.max e 0)
    by (apply Z.mul_nonneg_nonneg; [lia | apply Z.pow_nonneg; lia]).
  assert (Hd : 0 < 2 ^ Z.max (- e) 0) by (apply Z.pow_pos_nonneg; lia).
  destruct s; cbn [cond_Zopp].
  - rewrite Z.quot_opp_l by lia. now rewrite Z.quot_div_nonneg.
  - now rewrite Z.quot_div_nonneg.
Qed.

(** The default for [k]: where [int(x)] is defined so is [round(x)], and the
    conditional of the code is [round(x)] raised to at least 1. *)
Lemma int_round_clamp (x : float) (t : Z) :
  PyFloat.int x = Ok t ->
  exists r, PyFloat.round x = Ok r /\ (if 0 <? t then r else 1) = Z.max 1 r.
Proof.
  unfold PyFloat.int, PyFloat.round.
  destruct (Prim2SF x) as [s|s| |s mant e].
  - intros [= <-]. exists 0. split; reflexivity.
  - discriminate.
  - discriminate.
  - rewrite trunc_SF_toward_zero. intros [= <-].
    eexists. split; [reflexivity|].
    set (n := Z.pos mant * 2 ^ Z.max e 0).
    set (d := 2 ^ Z.max (- e) 0).
    assert (Hn : 0 <= n)
      by (apply Z.mul_nonneg_nonneg; [lia | apply Z.pow_nonneg; lia]).
    assert (Hd : 0 < d) by (apply Z.pow_pos_nonneg; lia).
    pose proof (Z.div_pos n d Hn Hd) as Hq.
    pose proof (half_even_near n d) as Hr.
    destruct s; cbn [cond_Zopp];
      destruct (Z.ltb_spec 0 (- (n / d))), (Z.ltb_spec 0 (n / d)); lia.
Qed.



(** In exact arithmetic [8127 <= 1440 * log2 50 < 8128]: the sizing formula
    at 1000 items and a rate of 1/50 has integer part 8127. *)
Lemma exact_sizing_bracket : 2 ^ 8127 <= 50 ^ 1440 < 2 ^ 8128.
Proof. split; [apply Z.leb_le | apply Z.ltb_lt]; vm_compute; reflexivity. Qed.

(** The sizes for 1000 items at rate 0.02 do not depend on the last bits of
    the library's logarithm: every double within 16 units in the last place
    of [-5.643856189774724] gives 8127 slots and 6 hash functions. *)
Lemma sizing_example_robust :
  forallb
    (fun lg =>
       match __init__ (fun _ => lg) 1000 0.02 0 with
       | Ok self => (memory_size self =? 8127) && (num_hash_functions self =? 6)
       | Raise _ => false
       end)
    (ulp_ball 16 (-5.643856189774724)%float) = true.
Proof. vm_compute. reflexivity. Qed.




(** C3, evaluated: a rate of 0 or below is replaced by 0.02 only in the
    stored [fpr]; the sizing still reads the caller's value, so
    [CountingBloomFilter(1000, 0)] stops with [OverflowError] and
    [CountingBloomFilter(1000, -1)] with [ValueError], while rate 0.02 itself
    gives 8127 slots and 6 hash functions. *)
Theorem nonpositive_fpr_not_sized_from_default :
  stored_fpr 0 = 0.02%float /\
  stored_fpr (-1) = 0.02%float /\
  __init__ np_log2_at 1000 0 0 = Raise OverflowError /\
  __init__ np_log2_at 1000 (-1) 0 = Raise ValueError /\
  __init__ np_log2_at 1000 0.02 0 = Ok (fresh 0.02 8127 6).
Proof. repeat split; vm_compute; reflexivity. Qed.

(** C7, evaluated: after [CountingBloomFilter(4, 0.5, 2)], [insert("aa")]
    and [delete("")], the empty string's two indices are both slot 0, slot 0
    holds -1, and [search("")] answers true although that counter is not
    above zero. *)
Theorem search_true_on_negative_counter :
  exists (self0 self' : CountingBloomFilter) (os : list (option bool)),
    __init__ np_log2_at 4 0.5 2 = Ok self0 /\
    run_calls [Insert (str_of "aa"); Delete (str_of "")] self0 = Ok (os, self') /\
    hash_cbf (str_of "") self' = Ok ([0; 0], self') /\
    counter self' 0 = -1 /\
    search (str_of "") self' = Ok (true, self').
Proof.
  exists (fresh 0.5 5 2), (set_hash_table [-1; 0; 0; 1; 0] (fresh 0.5 5 2)),
    [None; None].
  repeat split; vm_compute; reflexivity.
Qed.

(** What [search] does decide on a sized filter: it answers true exactly
    when no counter at the item's indices is zero, which is "all above zero"
    as long as no counter is negative; the filter is left as it was. *)
Lemma search_decides_nonzero (self : CountingBloomFilter) (item : str) :
  wf self ->
  exists b,
    search item self = Ok (b, self) /\
    (b = true <-> forall h, In h (indices_of self item) -> counter self h <> 0) /\
    (nonneg self ->
     (b = true <-> forall h, In h (indices_of self item) -> 0 < counter self h)).
Proof.
  intros Hwf. exists (present self item).
  split; [now apply search_ok|].
  split; [apply present_true_iff|].
  intros Hnn. rewrite present_true_iff. split; intros H h Hh.
  - specialize (H h Hh).
    specialize (Hnn h (indices_of_nonneg self item h Hwf Hh)). lia.
  - specialize (H h Hh). lia.
Qed.

(** ** Negative [num_hash_functions] *)



(** ** Exceptions *)










(** * Further properties of the operations *)

(** ** Shared facts *)

Lemma cbf_ext (a b : CountingBloomFilter) :
  fpr a = fpr b -> num_items a = num_items b ->
  memory_size a = memory_size b ->
  num_hash_functions a = num_hash_functions b ->
  length (hash_table a) = length (hash_table b) ->
  (forall j, 0 <= j -> counter a j = counter b j) ->
  a = b.
Proof.
  destruct a as [fa na ma ta ka], b as [fb nb mb tb kb].
  unfold counter. cbn [fpr num_items memory_size hash_table num_hash_functions].
  intros -> -> -> -> Hlen Hc. f_equal.
  apply table_ext; [exact Hlen|].
  intros j. specialize (Hc (Z.of_nat j) ltac:(lia)). now rewrite Nat2Z.id in Hc.
Qed.

Lemma run_call_search (item : str) self :
  wf self -> run_call (Search item) self = Ok (Some (present self item), self).
Proof. intros Hwf. cbn [run_call]. erewrite bind_ok by (now apply search_ok). reflexivity. Qed.

Lemma run_call_insert (item : str) self :
  wf self -> run_call (Insert item) self = Ok (None, inserted self item).
Proof. intros Hwf. cbn [run_call]. erewrite bind_ok by (now apply insert_ok). reflexivity. Qed.

Lemma run_call_delete (item : str) self :
  wf self -> run_call (Delete item) self = Ok (None, deleted self item).
Proof. intros Hwf. cbn [run_call]. erewrite bind_ok by (now apply delete_ok). reflexivity. Qed.

Lemma deleted_frame (self : CountingBloomFilter) (item : str) :
  fpr (deleted self item) = fpr self /\
  memory_size (deleted self item) = memory_size self /\
  num_hash_functions (deleted self item) = num_hash_functions self /\
  length (hash_table (deleted self item)) = length (hash_table self).
Proof.
  unfold deleted. destruct (present self item); cbn; repeat split; trivial.
  apply bump_length.
Qed.

Lemma total_insert (l : list Z) :
  forall (i : nat) (v : Z),
    (i < length l)%nat ->
    total (<[i := v]> l) = total l - default 0 (l !! i) + v.
Proof.
  induction l as [|a l IH]; intros i v Hi; [cbn in Hi; lia|].
  destruct i as [|i].
  - cbn. lia.
  - change (<[S i := v]> (a :: l)) with (a :: <[i := v]> l).
    change ((a :: l) !! S i) with (l !! i).
    change (total (a :: <[i := v]> l)) with (a + total (<[i := v]> l)).
    change (total (a :: l)) with (a + total l).
    rewrite IH by (cbn in Hi; lia). lia.
Qed.

Lemma total_bump (delta : Z) (hash_indices : list Z) :
  forall t : list Z,
    Forall (fun h => 0 <= h < Z.of_nat (length t)) hash_indices ->
    total (bump delta hash_indices t)
    = total t + delta * Z.of_nat (length hash_indices).
Proof.
  induction hash_indices as [|h rest IH]; intros t Hall.
  - change (bump delta [] t) with t.
    change (Z.of_nat (length (@nil Z))) with 0. lia.
  - inversion Hall as [|? ? Hh Hrest]; subst.
    change (bump delta (h :: rest) t)
      with (bump delta rest (<[Z.to_nat h := default 0 (t !! Z.to_nat h) + delta]> t)).
    rewrite IH by (rewrite length_insert; exact Hrest).
    rewrite total_insert by lia.
    change (length (h :: rest)) with (S (length rest)). lia.
Qed.

(** ** Bookkeeping over call sequences *)

(** Every call sequence on a sized filter returns one answer per call and
    leaves [fpr], [memory_size], [num_hash_functions] and the table length as
    they were; [num_items] ends at its start value plus the number of
    [insert] calls minus the number of [delete] calls, whether or not the
    deletions found their item. *)
Theorem call_sequence_bookkeeping (cs : list call) :
  forall self : CountingBloomFilter,
    wf self ->
    exists os self',
      run_calls cs self = Ok (os, self') /\
      length os = length cs /\
      num_items self' = num_items self + net_items cs /\
      fpr self' = fpr self /\
      memory_size self' = memory_size self /\
      num_hash_functions self' = num_hash_functions self /\
      length (hash_table self') = length (hash_table self).
Proof.
  induction cs as [|c rest IH]; intros self Hwf.
  - exists [], self. cbn. repeat split; trivial; lia.
  - assert (Hstep : exists o self1,
               run_call c self = Ok (o, self1) /\ wf self1 /\
               num_items self1 + net_items rest = num_items self + net_items (c :: rest) /\
               fpr self1 = fpr self /\ memory_size self1 = memory_size self /\
               num_hash_functions self1 = num_hash_functions self /\
               length (hash_table self1) = length (hash_table self)).
    { destruct c as [item|item|item].
      - exists (Some (present self item)), self.
        split; [now apply run_call_search|]. cbn [net_items]. repeat split; trivial; apply Hwf.
      - exists None, (inserted self item).
        split; [now apply run_call_insert|]. split; [now apply wf_inserted|].
        cbn [net_items inserted set_num_items set_hash_table num_items fpr
                       memory_size num_hash_functions hash_table].
        rewrite bump_length. repeat split; trivial; lia.
      - exists None, (deleted self item).
        split; [now apply run_call_delete|]. split; [now apply wf_deleted|].
        destruct (deleted_frame self item) as (Hf & Hm & Hk & Hl).
        split; [cbn [net_items deleted set_num_items num_items]; lia|].
        repeat split; assumption. }
    destruct Hstep as (o & self1 & E1 & Hwf1 & Hn1 & Hf1 & Hm1 & Hk1 & Hl1).
    destruct (IH self1 Hwf1) as (os & self2 & E2 & Hlen & Hn2 & Hf2 & Hm2 & Hk2 & Hl2).
    exists (o :: os), self2.
    split.
    { cbn [run_calls]. erewrite bind_ok by exact E1.
      erewrite bind_ok by exact E2. reflexivity. }
    split; [cbn [length]; now rewrite Hlen|].
    repeat split; congruence || lia.
Qed.

(** Five slots, two hash functions: one insertion and three deletions
    leave [num_items] at -2. *)
Lemma call_sequence_bookkeeping_witness :
  exists os self',
    run_calls [Delete (str_of "b"); Insert (str_of "aa"); Delete (str_of "aa");
               Delete (str_of "aa")] (fresh 0.5 5 2) = Ok (os, self') /\
    num_items self' = -2.
Proof.
  destruct (call_sequence_bookkeeping
              [Delete (str_of "b"); Insert (str_of "aa"); Delete (str_of "aa");
               Delete (str_of "aa")] (fresh 0.5 5 2))
    as (os & self' & E & _ & Hn & _).
  - apply wf_fresh. lia.
  - exists os, self'. split; [exact E | exact Hn].
Defined.

(** On a sized filter [insert] raises the sum of all counters by exactly
    [k] (by 0 when [k] is negative), and [delete] lowers it by as much when
    its membership test passes and leaves it alone otherwise. *)
Theorem counter_sum_moves_by_k (self : CountingBloomFilter) (item : str) :
  wf self ->
  exists self_i self_d b,
    insert item self = Ok (tt, self_i) /\
    total (hash_table self_i)
    = total (hash_table self) + Z.max 0 (num_hash_functions self) /\
    search item self = Ok (b, self) /\
    delete item self = Ok (tt, self_d) /\
    total (hash_table self_d)
    = total (hash_table self)
      - (if b then Z.max 0 (num_hash_functions self) else 0).
Proof.
  intros Hwf.
  exists (inserted self item), (deleted self item), (present self item).
  pose proof (wf_indices self item Hwf) as Hall.
  pose proof (indices_of_length item self) as Hlen.
  split; [now apply insert_ok|].
  split.
  { cbn [inserted set_num_items set_hash_table hash_table].
    rewrite total_bump by exact Hall. rewrite Hlen. lia. }
  split; [now apply search_ok|].
  split; [now apply delete_ok|].
  unfold deleted. destruct (present self item).
  - cbn [set_num_items set_hash_table hash_table].
    rewrite total_bump by exact Hall. rewrite Hlen. lia.
  - cbn [set_num_items hash_table]. lia.
Qed.

(** Five slots, two hash functions: inserting ["aa"] raises the sum of
    the empty table to 2. *)
Lemma counter_sum_moves_by_k_witness :
  exists self_i,
    insert (str_of "aa") (fresh 0.5 5 2) = Ok (tt, self_i) /\
    total (hash_table self_i) = 2.
Proof.
  destruct (counter_sum_moves_by_k (fresh 0.5 5 2) (str_of "aa"))
    as (self_i & _ & _ & Hi & Ht & _).
  - apply wf_fresh. lia.
  - exists self_i. split; [exact Hi | exact Ht].
Defined.

(** ** Batches of insertions *)

Lemma insert_all_frame (items : list str) :
  forall self,
    wf self ->
    wf (insert_all self items) /\
    fpr (insert_all self items) = fpr self /\
    memory_size (insert_all self items) = memory_size self /\
    num_hash_functions (insert_all self items) = num_hash_functions self /\
    length (hash_table (insert_all self items)) = length (hash_table self) /\
    num_items (insert_all self items) = num_items self + Z.of_nat (length items).
Proof.
  induction items as [|y ys IH]; intros self Hwf.
  - cbn. repeat split; trivial; try apply Hwf. lia.
  - change (insert_all self (y :: ys)) with (insert_all (inserted self y) ys).
    destruct (IH (inserted self y) (wf_inserted self y Hwf))
      as (Hwf' & Hf & Hm & Hk & Hl & Hn).
    split; [exact Hwf'|]. split; [exact Hf|]. split; [exact Hm|].
    split; [exact Hk|].
    split.
    + rewrite Hl. cbn [inserted set_num_items set_hash_table hash_table].
      apply bump_length.
    + rewrite Hn. cbn [inserted set_num_items num_items].
      change (length (y :: ys)) with (S (length ys)). lia.
Qed.

Lemma run_inserts (items : list str) :
  forall self,
    wf self ->
    run_calls (map Insert items) self
    = Ok (map (fun _ => None) items, insert_all self items).
Proof.
  induction items as [|y ys IH]; intros self Hwf; [reflexivity|].
  cbn [map run_calls].
  erewrite bind_ok by (now apply run_call_insert).
  erewrite bind_ok by (apply IH; now apply wf_inserted).
  reflexivity.
Qed.

Lemma load_nonneg (self : CountingBloomFilter) (items : list str) (j : Z) :
  0 <= load self items j.
Proof.
  induction items as [|y ys IH]; [cbn; lia|].
  change (load self (y :: ys) j) with (occ j (indices_of self y) + load self ys j).
  pose proof (occ_nonneg j (indices_of self y)). lia.
Qed.

Lemma load_app (self : CountingBloomFilter) (a b : list str) (j : Z) :
  load self (a ++ b) j = load self a j + load self b j.
Proof.
  induction a as [|y ys IH].
  { change (load self ([] ++ b) j) with (load self b j).
    change (load self [] j) with 0. lia. }
  change (load self ((y :: ys) ++ b) j)
    with (occ j (indices_of self y) + load self (ys ++ b) j).
  change (load self (y :: ys) j) with (occ j (indices_of self y) + load self ys j).
  lia.
Qed.

Lemma load_perm (self : CountingBloomFilter) (a b : list str) (j : Z) :
  Permutation a b -> load self a j = load self b j.
Proof.
  induction 1 as [|x l l' _ IH|x y l|l l' l'' _ IH1 _ IH2].
  - reflexivity.
  - change (load self (x :: l) j) with (occ j (indices_of self x) + load self l j).
    change (load self (x :: l') j) with (occ j (indices_of self x) + load self l' j).
    lia.
  - change (load self (y :: x :: l) j)
      with (occ j (indices_of self y) + (occ j (indices_of self x) + load self l j)).
    change (load self (x :: y :: l) j)
      with (occ j (indices_of self x) + (occ j (indices_of self y) + load self l j)).
    lia.
  - lia.
Qed.

Lemma counter_insert_all (items : list str) :
  forall self (j : Z),
    wf self -> 0 <= j ->
    counter (insert_all self items) j = counter self j + load self items j.
Proof.
  induction items as [|y ys IH]; intros self j Hwf Hj.
  - change (insert_all self []) with self. change (load self [] j) with 0. lia.
  - change (insert_all self (y :: ys)) with (insert_all (inserted self y) ys).
    rewrite IH by (try apply wf_inserted; assumption).
    rewrite counter_inserted by assumption.
    change (load (inserted self y) ys j) with (load self ys j).
    change (load self (y :: ys) j) with (occ j (indices_of self y) + load self ys j).
    lia.
Qed.

(** The filter a batch of insertions leaves on a sized filter does not
    depend on the order of the batch: any rearrangement of the same items
    gives the same counters and the same item count. *)
Theorem insertion_order_irrelevant
        (self : CountingBloomFilter) (items items' : list str) :
  wf self ->
  Permutation items items' ->
  exists os os' self',
    run_calls (map Insert items) self = Ok (os, self') /\
    run_calls (map Insert items') self = Ok (os', self').
Proof.
  intros Hwf Hperm.
  exists (map (fun _ => None) items), (map (fun _ => None) items'),
    (insert_all self items).
  split; [now apply run_inserts|].
  rewrite run_inserts by exact Hwf. f_equal. f_equal.
  destruct (insert_all_frame items self Hwf) as (_ & Hf & Hm & Hk & Hl & Hn).
  destruct (insert_all_frame items' self Hwf) as (_ & Hf' & Hm' & Hk' & Hl' & Hn').
  apply cbf_ext; try congruence.
  - rewrite Hn, Hn'. now rewrite (Permutation_length Hperm).
  - intros j Hj. rewrite !counter_insert_all by assumption.
    now rewrite (load_perm self items' items j (Permutation_sym Hperm)).
Qed.

(** Five slots, two hash functions: ["aa"; "b"; "c"] and ["c"; "aa"; "b"]. *)
Lemma insertion_order_irrelevant_witness :
  exists os os' self',
    run_calls (map Insert [str_of "aa"; str_of "b"; str_of "c"]) (fresh 0.5 5 2)
    = Ok (os, self') /\
    run_calls (map Insert [str_of "c"; str_of "aa"; str_of "b"]) (fresh 0.5 5 2)
    = Ok (os', self').
Proof.
  apply (insertion_order_irrelevant (fresh 0.5 5 2)).
  - apply wf_fresh. lia.
  - apply Permutation_sym.
    apply (Permutation_cons_app [str_of "aa"; str_of "b"] [] (str_of "c")).
    apply Permutation_refl.
Defined.

(** Deleting one inserted item undoes exactly that insertion: on a sized
    filter without negative counters, a batch of insertions followed by
    [delete x] for an [x] of the batch leaves the very filter the batch
    without that [x] leaves, and every other item of the batch is still
    found. *)
Theorem delete_undoes_one_insertion
        (self : CountingBloomFilter) (xs : list str) (x : str) (ys : list str) :
  wf self -> nonneg self ->
  exists os self1 self2 os',
    run_calls (map Insert (xs ++ x :: ys)) self = Ok (os, self1) /\
    delete x self1 = Ok (tt, self2) /\
    run_calls (map Insert (xs ++ ys)) self = Ok (os', self2) /\
    forall y, In y (xs ++ ys) -> search y self2 = Ok (true, self2).
Proof.
  intros Hwf Hnn.
  destruct (insert_all_frame (xs ++ x :: ys) self Hwf)
    as (Hwf1 & Hf1 & Hm1 & Hk1 & Hl1 & Hn1).
  destruct (insert_all_frame (xs ++ ys) self Hwf)
    as (Hwf2 & Hf2 & Hm2 & Hk2 & Hl2 & Hn2).
  set (self1 := insert_all self (xs ++ x :: ys)) in *.
  assert (Hidx : indices_of self1 x = indices_of self x)
    by (now apply indices_of_eq).
  assert (Hp : present self1 x = true).
  { apply present_true_iff. intros h Hh. rewrite Hidx in Hh.
    pose proof (indices_of_nonneg self x h Hwf Hh) as Hh0.
    unfold self1. rewrite counter_insert_all by assumption.
    rewrite load_app.
    change (load self (x :: ys) h) with (occ h (indices_of self x) + load self ys h).
    pose proof (load_nonneg self xs h). pose proof (load_nonneg self ys h).
    pose proof (occ_in h _ Hh). specialize (Hnn h Hh0). lia. }
  assert (Heq : deleted self1 x = insert_all self (xs ++ ys)).
  { destruct (deleted_frame self1 x) as (Hdf & Hdm & Hdk & Hdl).
    apply cbf_ext; try congruence.
    - cbn [deleted set_num_items num_items]. rewrite Hn1, Hn2.
      rewrite !length_app. change (length (x :: ys)) with (S (length ys)). lia.
    - intros j Hj. rewrite counter_deleted by assumption.
      rewrite Hidx. unfold self1. rewrite !counter_insert_all by assumption.
      rewrite !load_app.
      change (load self (x :: ys) j) with (occ j (indices_of self x) + load self ys j).
      lia. }
  exists (map (fun _ => None) (xs ++ x :: ys)), self1,
    (insert_all self (xs ++ ys)), (map (fun _ => None) (xs ++ ys)).
  split; [now apply run_inserts|].
  split; [rewrite delete_ok by exact Hwf1; now rewrite Heq|].
  split; [now apply run_inserts|].
  intros y Hy.
  destruct (inserts_keep_present (xs ++ ys) self Hwf Hnn)
    as (os2 & self2 & Erun & _ & _ & _ & _ & Hpres).
  rewrite run_inserts in Erun by exact Hwf. injection Erun as _ <-.
  rewrite search_ok by exact Hwf2. now rewrite (Hpres y Hy).
Qed.

(** Five slots, two hash functions: insert ["b"], ["aa"], ["c"], then
    delete ["aa"]. *)
Lemma delete_undoes_one_insertion_witness :
  exists os self1 self2 os',
    run_calls (map Insert ([str_of "b"] ++ str_of "aa" :: [str_of "c"]))
              (fresh 0.5 5 2) = Ok (os, self1) /\
    delete (str_of "aa") self1 = Ok (tt, self2) /\
    run_calls (map Insert ([str_of "b"] ++ [str_of "c"])) (fresh 0.5 5 2)
    = Ok (os', self2).
Proof.
  destruct (delete_undoes_one_insertion
              (fresh 0.5 5 2) [str_of "b"] (str_of "aa") [str_of "c"])
    as (os & self1 & self2 & os' & E1 & E2 & E3 & _).
  - apply wf_fresh. lia.
  - intros j _. rewrite counter_fresh. lia.
  - exists os, self1, self2, os'. repeat split; assumption.
Defined.

(** ** When the counters stay non-negative *)

Lemma inserted_nonneg (self : CountingBloomFilter) (item : str) :
  wf self -> nonneg self -> nonneg (inserted self item).
Proof.
  intros Hwf Hnn j Hj. rewrite counter_inserted by assumption.
  pose proof (occ_nonneg j (indices_of self item)). specialize (Hnn j Hj). lia.
Qed.

Lemma deleted_nonneg (self : CountingBloomFilter) (item : str) :
  wf self -> nonneg self -> List.NoDup (indices_of self item) ->
  nonneg (deleted self item).
Proof.
  intros Hwf Hnn Hnd j Hj.
  destruct (present self item) eqn:Hp.
  - rewrite counter_deleted by assumption.
    pose proof (proj1 (List.NoDup_count_occ Z.eq_dec (indices_of self item)) Hnd j) as H1.
    destruct (count_occ Z.eq_dec (indices_of self item) j) as [|n] eqn:Hc.
    + unfold occ. rewrite Hc. specialize (Hnn j Hj). lia.
    + assert (Hin : In j (indices_of self item))
        by (apply (count_occ_In Z.eq_dec); lia).
      pose proof (proj1 (present_true_iff self item) Hp j Hin) as Hne.
      unfold occ. rewrite Hc. specialize (Hnn j Hj). lia.
  - unfold deleted. rewrite Hp. exact (Hnn j Hj).
Qed.



(** With at most one hash function the invariant [0 <= counters[i]] is
    safe: from a sized filter without negative counters, every sequence of
    [search], [insert] and [delete] calls ends in a filter without negative
    counters. *)
Theorem single_hash_keeps_nonneg (cs : list call) :
  forall self : CountingBloomFilter,
    wf self -> nonneg self -> num_hash_functions self <= 1 ->
    exists os self', run_calls cs self = Ok (os, self') /\ nonneg self'.
Proof.
  induction cs as [|c rest IH]; intros self Hwf Hnn Hk.
  - now exists [], self.
  - assert (Hstep : exists o self1,
               run_call c self = Ok (o, self1) /\ wf self1 /\ nonneg self1 /\
               num_hash_functions self1 <= 1).
    { destruct c as [item|item|item].
      - exists (Some (present self item)), self.
        split; [now apply run_call_search|].
        split; [exact Hwf|]. split; [exact Hnn | exact Hk].
      - exists None, (inserted self item).
        split; [now apply run_call_insert|].
        split; [now apply wf_inserted|].
        split; [now apply inserted_nonneg | exact Hk].
      - exists None, (deleted self item).
        split; [now apply run_call_delete|].
        split; [now apply wf_deleted|].
        split.
        + apply deleted_nonneg; try assumption.
          pose proof (indices_of_length item self) as Hlen.
          destruct (indices_of self item) as [|h [|h' l]].
          * apply List.NoDup_nil.
          * apply List.NoDup_cons; [intros [] | apply List.NoDup_nil].
          * cbn in Hlen. lia.
        + destruct (deleted_frame self item) as (_ & _ & Hk' & _). lia. }
    destruct Hstep as (o & self1 & E1 & Hwf1 & Hnn1 & Hk1).
    destruct (IH self1 Hwf1 Hnn1 Hk1) as (os & self2 & E2 & Hnn2).
    exists (o :: os), self2. split; [|exact Hnn2].
    cbn [run_calls]. erewrite bind_ok by exact E1.
    erewrite bind_ok by exact E2. reflexivity.
Qed.

(** Five slots, one hash function: delete, insert, delete, delete. *)
Lemma single_hash_keeps_nonneg_witness :
  exists os self',
    run_calls [Delete (str_of ""); Insert (str_of "aa"); Delete (str_of "aa");
               Delete (str_of "aa")] (fresh 0.5 5 1) = Ok (os, self') /\
    nonneg self'.
Proof.
  apply single_hash_keeps_nonneg.
  - apply wf_fresh. lia.
  - intros j _. rewrite counter_fresh. lia.
  - simpl. lia.
Defined.

(** On a sized filter without negative counters an insertion never turns
    a positive [search] answer into a negative one, whatever item is
    inserted. *)
Theorem insert_keeps_search_true
        (self : CountingBloomFilter) (x y : str) :
  wf self -> nonneg self ->
  search y self = Ok (true, self) ->
  exists self', insert x self = Ok (tt, self') /\ search y self' = Ok (true, self').
Proof.
  intros Hwf Hnn Hs.
  rewrite search_ok in Hs by exact Hwf. injection Hs as Hp.
  exists (inserted self x). split; [now apply insert_ok|].
  rewrite search_ok by (now apply wf_inserted). f_equal. f_equal.
  apply present_true_iff. intros h Hh.
  change (indices_of (inserted self x) y) with (indices_of self y) in Hh.
  pose proof (indices_of_nonneg self y h Hwf Hh) as Hh0.
  rewrite counter_inserted by assumption.
  pose proof (proj1 (present_true_iff self y) Hp h Hh).
  pose proof (occ_nonneg h (indices_of self x)). specialize (Hnn h Hh0). lia.
Qed.

(** Five slots, two hash functions: ["f"] is found once ["a"] is in (both
    hash to slot 4), and stays found after ["b"] is inserted. *)
Lemma insert_keeps_search_true_witness :
  exists self',
    insert (str_of "b")
           (set_num_items 1 (set_hash_table [0; 0; 0; 0; 2] (fresh 0.5 5 2)))
    = Ok (tt, self') /\
    search (str_of "f") self' = Ok (true, self').
Proof.
  assert (E : set_num_items 1 (set_hash_table [0; 0; 0; 0; 2] (fresh 0.5 5 2))
              = inserted (fresh 0.5 5 2) (str_of "a"))
    by (vm_compute; reflexivity).
  rewrite E.
  apply insert_keeps_search_true.
  - apply wf_inserted, wf_fresh. lia.
  - apply inserted_nonneg; [apply wf_fresh; lia|].
    intros j _. rewrite counter_fresh. lia.
  - vm_compute. reflexivity.
Defined.

(** ** What the hash family cannot tell apart *)

Lemma hash_index_one_char (m : Z) (c : char) (i : Z) :
  hash_index m [c] i = ord c ^ 2 mod m.
Proof.
  change (hash_index m [c] i)
    with ((0 + (ord c * (2 ^ (i + 1)) ^ 0) ^ 2) mod m).
  now rewrite Z.pow_0_r, Z.mul_1_r, Z.add_0_l.
Qed.

Lemma occ_repeat_same (h : Z) (n : nat) : occ h (repeat h n) = Z.of_nat n.
Proof.
  induction n as [|n IH]; [reflexivity|].
  cbn [repeat]. rewrite occ_cons, IH. destruct (Z.eq_dec h h); [lia | contradiction].
Qed.

Lemma occ_repeat_other (j h : Z) (n : nat) : h <> j -> occ j (repeat h n) = 0.
Proof.
  intros Hne. induction n as [|n IH]; [reflexivity|].
  cbn [repeat]. rewrite occ_cons, IH. destruct (Z.eq_dec h j); [contradiction | lia].
Qed.

Lemma map_const_repeat {A : Type} (v : Z) (l : list A) :
  map (fun _ => v) l = repeat v (length l).
Proof. induction l as [|a l IH]; [reflexivity|]. cbn [map length repeat]. now rewrite IH. Qed.

(** For a one-character item all [k] hash functions agree: every index is
    [ord(c)^2 mod m], because the radix only enters as [d^0].  So on a sized
    filter inserting such an item raises that single counter by [k] and
    touches no other slot. *)
Theorem one_char_item_hits_one_slot (self : CountingBloomFilter) (c : char) :
  1 <= memory_size self -> sized self ->
  hash_cbf [c] self
  = Ok (repeat (ord c ^ 2 mod memory_size self)
               (Z.to_nat (num_hash_functions self)), self) /\
  exists self',
    insert [c] self = Ok (tt, self') /\
    counter self' (ord c ^ 2 mod memory_size self)
    = counter self (ord c ^ 2 mod memory_size self)
      + Z.max 0 (num_hash_functions self) /\
    forall j, 0 <= j -> j <> ord c ^ 2 mod memory_size self ->
              counter self' j = counter self j.
Proof.
  intros Hm Hs. assert (Hwf : wf self) by (split; [lia | exact Hs]).
  assert (Hidx : indices_of self [c]
                 = repeat (ord c ^ 2 mod memory_size self)
                          (Z.to_nat (num_hash_functions self))).
  { unfold indices_of.
    rewrite (map_ext _ (fun _ => ord c ^ 2 mod memory_size self))
      by (intros i; apply hash_index_one_char).
    now rewrite map_const_repeat, range_length. }
  split; [rewrite hash_cbf_ok by lia; now rewrite Hidx|].
  exists (inserted self [c]). split; [now apply insert_ok|].
  pose proof (Z.mod_pos_bound (ord c ^ 2) (memory_size self) ltac:(lia)) as Hb.
  split.
  - rewrite counter_inserted by (assumption || lia).
    rewrite Hidx, occ_repeat_same. lia.
  - intros j Hj Hne. rewrite counter_inserted by assumption.
    rewrite Hidx, occ_repeat_other by congruence. lia.
Qed.

(** Five slots, two hash functions: ["a"] (code 97) hits slot 4 twice. *)
Lemma one_char_item_hits_one_slot_witness :
  hash_cbf (str_of "a") (fresh 0.5 5 2) = Ok ([4; 4], fresh 0.5 5 2).
Proof.
  destruct (one_char_item_hits_one_slot (fresh 0.5 5 2) 97%N) as [Hh _].
  - simpl. lia.
  - reflexivity.
  - exact Hh.
Defined.

Lemma step_mod_congr (m acc a b e : Z) :
  a mod m = b mod m ->
  (acc + (a * e) ^ 2) mod m = (acc + (b * e) ^ 2) mod m.
Proof.
  intros Hab.
  rewrite (Zplus_mod acc ((a * e) ^ 2)), (Zplus_mod acc ((b * e) ^ 2)).
  f_equal. f_equal.
  rewrite !Z.pow_2_r.
  rewrite (Zmult_mod (a * e) (a * e)), (Zmult_mod (b * e) (b * e)).
  rewrite (Zmult_mod a e), (Zmult_mod b e), Hab. reflexivity.
Qed.

Lemma fold_hash_congr (m d : Z) (item1 item2 : str) :
  List.Forall2 (fun a b => ord a mod m = ord b mod m) item1 item2 ->
  fold_hash m d item1 = fold_hash m d item2.
Proof.
  intros H. unfold fold_hash, positions, range. rewrite !Nat2Z.id.
  generalize 0 as acc. generalize 0%nat as p.
  induction H as [|a b l1 l2 Hab _ IH]; intros p acc; [reflexivity|].
  cbn [length seq map combine fold_left fst snd].
  rewrite (step_mod_congr m acc (ord a) (ord b) _ Hab). apply IH.
Qed.

(** The hash reads every character code modulo [m] only: two strings of
    one length whose codes agree modulo [m] position by position get the
    same index list, so on a sized filter [search] cannot tell them apart. *)
Theorem hash_reads_codes_modulo_m
        (self : CountingBloomFilter) (item1 item2 : str) :
  wf self ->
  List.Forall2 (fun a b => ord a mod memory_size self = ord b mod memory_size self)
               item1 item2 ->
  hash_cbf item1 self = hash_cbf item2 self /\
  search item1 self = search item2 self.
Proof.
  intros Hwf H.
  assert (Hh : hash_cbf item1 self = hash_cbf item2 self).
  { rewrite !hash_cbf_ok by (destruct Hwf; lia). f_equal. f_equal.
    unfold indices_of. apply map_ext. intros i.
    unfold hash_index. now apply fold_hash_congr. }
  split; [exact Hh|].
  unfold search, bind. now rewrite Hh.
Qed.

(** Five slots, two hash functions: ["af"] and ["fa"] (codes 97 and 102,
    both 2 modulo 5). *)
Lemma hash_reads_codes_modulo_m_witness :
  hash_cbf (str_of "af") (fresh 0.5 5 2) = hash_cbf (str_of "fa") (fresh 0.5 5 2).
Proof.
  destruct (hash_reads_codes_modulo_m (fresh 0.5 5 2) (str_of "af") (str_of "fa"))
    as [Hh _].
  - apply wf_fresh. lia.
  - repeat constructor.
  - exact Hh.
Defined.

(** ** What [__init__] hands over, and when it cannot *)

(** Whenever [__init__] returns a filter, for any [numpy.log2], that
    filter holds no item, its table has [max(m, 0)] slots, all zero, its
    [fpr] is the caller's when positive and 0.02 otherwise, and its number of
    hash functions is the caller's when that is not 0 and at least 1 when it
    is. *)
Theorem constructed_filter_is_empty_and_sized
        (np_log2 : float -> float) (n : Z) (f : float) (k : Z)
        (self : CountingBloomFilter) :
  __init__ np_log2 n f k = Ok self ->
  num_items self = 0 /\
  length (hash_table self) = Z.to_nat (memory_size self) /\
  hash_table self = repeat 0 (Z.to_nat (memory_size self)) /\
  (forall j, counter self j = 0) /\
  fpr self = (if (0 <? f)%float then f else 0.02%float) /\
  (k <> 0 -> num_hash_functions self = k) /\
  (k = 0 -> 1 <= num_hash_functions self).
Proof.
  intros Hinit.
  assert (Hshape : self = fresh (stored_fpr f) (memory_size self)
                                (num_hash_functions self) /\
                   (k <> 0 -> num_hash_functions self = k) /\
                   (k = 0 -> 1 <= num_hash_functions self)).
  { unfold __init__ in Hinit.
    destruct (PyFloat.of_int n) as [x|]; [|discriminate].
    destruct (PyFloat.int (x * _)) as [m|]; [|discriminate].
    destruct (Z.eqb_spec k 0) as [Hk|Hk].
    - destruct (PyFloat.int (- np_log2 f)) as [t|] eqn:Et; [|discriminate].
      destruct (int_round_clamp _ _ Et) as (r & Hr & Hclamp).
      rewrite Hr in Hinit.
      destruct (Z.ltb_spec 0 t); injection Hinit as <-;
        (split; [reflexivity|]); cbn [num_hash_functions]; split; intros; lia.
    - injection Hinit as <-.
      split; [reflexivity|]. cbn [num_hash_functions]. split; intros; lia. }
  destruct Hshape as (Hself & Hk1 & Hk0).
  split; [now rewrite Hself|].
  split; [rewrite Hself at 1; cbn [fresh hash_table]; apply repeat_length|].
  split; [now rewrite Hself at 1|].
  split; [intros j; rewrite Hself; apply counter_fresh|].
  split; [now rewrite Hself at 1|].
  split; assumption.
Qed.

(** [CountingBloomFilter(4, 0.5)]: five slots, one hash function. *)
Lemma constructed_filter_is_empty_and_sized_witness :
  num_items (fresh 0.5 5 1) = 0 /\
  hash_table (fresh 0.5 5 1) = repeat 0 (Z.to_nat (memory_size (fresh 0.5 5 1))).
Proof.
  destruct (constructed_filter_is_empty_and_sized np_log2_at 4 0.5 0 (fresh 0.5 5 1))
    as (Hn & _ & Ht & _).
  - vm_compute. reflexivity.
  - split; [exact Hn | exact Ht].
Defined.

Lemma trunc_SF_not_finite (y : spec_float) :
  raises (PyFloat.trunc_SF y) ->
  y = S754_nan \/ exists s, y = S754_infinity s.
Proof.
  destruct y as [s|s| |s m e]; cbn; intros H; try contradiction.
  - right. now exists s.
  - now left.
Qed.

Lemma mul_not_finite_r (x y : float) :
  raises (PyFloat.int y) -> raises (PyFloat.int (x * y)%float).
Proof.
  unfold PyFloat.int. intros H. rewrite mul_spec.
  destruct (trunc_SF_not_finite _ H) as [->|[s ->]];
    destruct (Prim2SF x) as [sx|sx| |sx mx ex]; exact I.
Qed.

(** No filter comes out of [__init__] when [log2(fpr)] is not a finite
    number, as it is for [fpr <= 0]: whatever [num_items] and
    [num_hash_functions] are, the call raises. *)
Theorem construction_raises_without_finite_log2
        (np_log2 : float -> float) (n : Z) (f : float) (k : Z) :
  raises (PyFloat.int (np_log2 f)) ->
  raises (__init__ np_log2 n f k).
Proof.
  intros Hlg. unfold __init__.
  destruct (PyFloat.of_int n) as [x|e]; [|exact I].
  pose proof (mul_not_finite_r x _ (mul_not_finite_r (-1.44)%float _ Hlg)) as H.
  destruct (PyFloat.int (x * (-1.44 * np_log2 f))%float) as [m|e];
    [contradiction | exact I].
Qed.

(** [CountingBloomFilter(7, 0, 3)]: [log2(0)] is minus infinity. *)
Lemma construction_raises_without_finite_log2_witness :
  raises (__init__ np_log2_at 7 0 3).
Proof.
  apply construction_raises_without_finite_log2.
  vm_compute. exact I.
Defined.

(** ** Deleting and putting back *)

(** A [delete] whose membership test passes is undone by an [insert] of
    the same item: on a sized filter where [search x] is true, [delete x]
    followed by [insert x] gives back the filter, counters and item count,
    negative counters or not. *)
Theorem delete_then_insert_restores (self : CountingBloomFilter) (x : str) :
  wf self ->
  search x self = Ok (true, self) ->
  exists self1, delete x self = Ok (tt, self1) /\ insert x self1 = Ok (tt, self).
Proof.
  intros Hwf Hs. rewrite search_ok in Hs by exact Hwf. injection Hs as Hp.
  exists (deleted self x). split; [now apply delete_ok|].
  rewrite insert_ok by (now apply wf_deleted). f_equal. f_equal.
  destruct (deleted_frame self x) as (Hf & Hm & Hk & Hl).
  apply cbf_ext.
  - exact Hf.
  - cbn [inserted deleted set_num_items num_items]. lia.
  - exact Hm.
  - exact Hk.
  - cbn [inserted set_num_items set_hash_table hash_table].
    rewrite bump_length. exact Hl.
  - intros j Hj. rewrite counter_inserted by (try apply wf_deleted; assumption).
    rewrite (indices_of_eq (deleted self x) self x Hm Hk).
    rewrite counter_deleted by assumption. lia.
Qed.

(** Five slots, two hash functions, ["aa"] present once. *)
Lemma delete_then_insert_restores_witness :
  exists self1,
    delete (str_of "aa")
           (set_num_items 1 (set_hash_table [1; 0; 0; 1; 0] (fresh 0.5 5 2)))
    = Ok (tt, self1) /\
    insert (str_of "aa") self1
    = Ok (tt, set_num_items 1 (set_hash_table [1; 0; 0; 1; 0] (fresh 0.5 5 2))).
Proof.
  apply delete_then_insert_restores.
  - split; [simpl; lia | reflexivity].
  - vm_compute. reflexivity.
Defined.
